(** * iac-infra: the stack programs and the values they template

    The repository holds four revisions of one Pulumi stack program
    ([src/index.ts] carries two of them back to back, [src/unnamed/part_000]
    and [src/unnamed/part_001] one each).  Every revision declares cloud
    resources and hands them to the Pulumi engine; the code of its own is
    the callbacks it passes to [apply]: the kubeconfig document, the service
    URLs and the IRSA trust policy.  This development embeds those callbacks
    and the wiring around them. *)

From Stdlib Require Import String Ascii List Bool Arith Lia.
From Stdlib Require Import DecimalString DecimalNat ZArith ZifyNat.
Import ListNotations.
Open Scope string_scope.

(** ** JavaScript values used by the programs *)

Module JS.

(** Strings are sequences of 8-bit characters: the texts of the programs
    (URLs, ARNs, names, certificate data in base64) are ASCII.

    The values the programs hand to [JSON.stringify]: strings, arrays and
    plain objects (an object is its properties in insertion order; no key
    of the programs is an integer index or repeated, so insertion order is
    the enumeration order). *)
#[local] Unset Elimination Schemes.
Inductive json : Type :=
| JStr (s : string)
| JArr (items : list json)
| JObj (props : list (string * json)).
#[local] Set Elimination Schemes.

(** Property access [o.k] and [o[k]]; [None] is [undefined]. *)
Fixpoint assoc (k : string) (props : list (string * json)) : option json :=
  match props with
  | [] => None
  | (k', v) :: rest => if String.eqb k k' then Some v else assoc k rest
  end.

Definition get (k : string) (j : json) : option json :=
  match j with
  | JObj props => assoc k props
  | _ => None
  end.

(** Element access [a[i]]. *)
Definition item (i : nat) (j : json) : option json :=
  match j with
  | JArr items => nth_error items i
  | _ => None
  end.

(** A chain of accesses such as [o.clusters[0].cluster.server]. *)
Inductive access : Type :=
| Key (k : string)
| Idx (i : nat).

Fixpoint get_path (path : list access) (j : json) : option json :=
  match path with
  | [] => Some j
  | a :: rest =>
      match (match a with Key k => get k j | Idx i => item i j end) with
      | Some v => get_path rest v
      | None => None
      end
  end.

(** Truthiness of a value of type [string | undefined]: [undefined] and the
    empty string are falsy. *)
Definition truthy (v : option string) : bool :=
  match v with
  | Some (String _ _) => true
  | _ => false
  end.

(** [ToString] inside a template literal. *)
Definition to_string (v : option string) : string :=
  match v with
  | Some s => s
  | None => "undefined"
  end.

(** [s.replace(searchString, replaceValue)] with a string pattern: the
    first occurrence (as [indexOf] finds it) is replaced, the rest of the
    string is kept.  The replacement of the programs holds no [$]. *)
Definition replace (s pat rep : string) : string :=
  match index 0 pat s with
  | None => s
  | Some pos =>
      substring 0 pos s ++ rep
        ++ substring (pos + String.length pat)
             (String.length s - (pos + String.length pat)) s
  end.

(** The double quote and the backslash, as one-character strings. *)
Definition dquote : string := String "034"%char EmptyString.
Definition backslash : string := String "092"%char EmptyString.

Definition hex_digit (n : nat) : ascii :=
  nth n ["0"; "1"; "2"; "3"; "4"; "5"; "6"; "7"; "8"; "9";
         "a"; "b"; "c"; "d"; "e"; "f"]%char "0"%char.

(** One code unit inside a JSON string (QuoteJSONString): the two-character
    escapes, [\u00xx] for the other control characters, the character
    itself otherwise. *)
Definition quote_char (c : ascii) : string :=
  let n := nat_of_ascii c in
  if (n =? 8)%nat then backslash ++ "b"
  else if (n =? 9)%nat then backslash ++ "t"
  else if (n =? 10)%nat then backslash ++ "n"
  else if (n =? 12)%nat then backslash ++ "f"
  else if (n =? 13)%nat then backslash ++ "r"
  else if (n =? 34)%nat then backslash ++ dquote
  else if (n =? 92)%nat then backslash ++ backslash
  else if (n <? 32)%nat then
    backslash ++ "u00"
      ++ String (hex_digit (n / 16)) (String (hex_digit (n mod 16)) EmptyString)
  else String c EmptyString.

Fixpoint quote_chars (s : string) : string :=
  match s with
  | EmptyString => EmptyString
  | String c rest => quote_char c ++ quote_chars rest
  end.

Definition quote (s : string) : string := dquote ++ quote_chars s ++ dquote.

(** [JSON.stringify(value)] with no replacer and no indentation. *)
Fixpoint JSON_stringify (j : json) : string :=
  match j with
  | JStr s => quote s
  | JArr items => "[" ++ String.concat "," (map JSON_stringify items) ++ "]"
  | JObj props =>
      "{" ++ String.concat ","
               (map (fun kv : string * json =>
                       let (k, v) := kv in quote k ++ ":" ++ JSON_stringify v)
                    props)
          ++ "}"
  end.

End JS.

(** ** Outputs *)

(** Modelled from the spec: the [Output] type of the [@pulumi/pulumi]
    package, which the programs import and which is not part of the
    sources.  Spec section 3, OutputValue: a value is [Unresolved] until all
    inputs it derives from are applied; then it is computed once and kept
    for the run. *)
Inductive Output (A : Type) : Type :=
| Unresolved
| Resolved (v : A).

Arguments Unresolved {A}.
Arguments Resolved {A} v.

Module pulumi.

(** [o.apply(f)] *)
Definition apply {A B : Type} (f : A -> B) (o : Output A) : Output B :=
  match o with
  | Unresolved => Unresolved
  | Resolved v => Resolved (f v)
  end.

(** [pulumi.all([a, b])] *)
Definition all2 {A B : Type} (a : Output A) (b : Output B) : Output (A * B) :=
  match a, b with
  | Resolved x, Resolved y => Resolved (x, y)
  | _, _ => Unresolved
  end.

(** [pulumi.all([a, b, c])] *)
Definition all3 {A B C : Type}
  (a : Output A) (b : Output B) (c : Output C) : Output (A * B * C) :=
  match a, b, c with
  | Resolved x, Resolved y, Resolved z => Resolved (x, y, z)
  | _, _, _ => Unresolved
  end.


End pulumi.

(** ** Resources the programs read outputs of *)

(** [aws.eks.Cluster]: the outputs the programs read.
    [identities_oidc_issuer] is [cluster.identities[0].oidcs[0].issuer]. *)
Record CertificateAuthority : Type := {
  data : string
}.

Record Cluster : Type := {
  name : Output string;
  endpoint : Output string;
  certificateAuthority : Output CertificateAuthority;
  version : Output string;
  identities_oidc_issuer : Output string
}.

(** [aws.iam.OpenIdConnectProvider] *)
Record OpenIdConnectProvider : Type := {
  url : Output string;
  arn : Output string
}.

(** One entry of [status.loadBalancer.ingress]. *)
Record LoadBalancerIngress : Type := {
  hostname : option string;
  ip : option string
}.

(** What [service.status.loadBalancer.ingress] resolves to: the array, or
    [undefined] while the load balancer has none. *)
Definition Ingress : Type := option (list LoadBalancerIngress).

(** [k8s.core.v1.Service]: the output the programs read. *)
Record Service : Type := {
  status_loadBalancer_ingress : Output Ingress
}.

(** [k8s.Provider] and the resource options that name it. *)
Record Provider : Type := {
  provider_name : string;
  provider_kubeconfig : Output string
}.

Record ResourceOptions : Type := {
  opt_provider : option Provider;
  opt_dependsOn : list string
}.

(** [ingress && ingress[0]?.hostname]: the value the conditionals of the URL
    callbacks test.  [undefined && ...] is [undefined]; an array is truthy
    even when empty, [ingress[0]] is then [undefined] and [?.] stops there. *)
Definition first_hostname (ingress : Ingress) : option string :=
  match ingress with
  | None => None
  | Some entries =>
      match nth_error entries 0 with
      | None => None
      | Some entry => hostname entry
      end
  end.

(** ** src/index.ts, first program (lines 1-275) *)

Module IndexTs.

(** lines 125-158 *)
Definition kubeconfig_callback
  (args : string * CertificateAuthority * string) : JS.json :=
  let '(endpoint, certAuth, name) := args in
  JS.JObj [
    ("apiVersion", JS.JStr "v1");
    ("clusters", JS.JArr [
      JS.JObj [
        ("cluster", JS.JObj [
          ("server", JS.JStr endpoint);
          ("certificate-authority-data", JS.JStr (data certAuth))
        ]);
        ("name", JS.JStr "kubernetes")
      ]
    ]);
    ("contexts", JS.JArr [
      JS.JObj [
        ("context", JS.JObj [
          ("cluster", JS.JStr "kubernetes");
          ("user", JS.JStr "aws")
        ]);
        ("name", JS.JStr "aws")
      ]
    ]);
    ("current-context", JS.JStr "aws");
    ("kind", JS.JStr "Config");
    ("users", JS.JArr [
      JS.JObj [
        ("name", JS.JStr "aws");
        ("user", JS.JObj [
          ("exec", JS.JObj [
            ("apiVersion", JS.JStr "client.authentication.k8s.io/v1beta1");
            ("command", JS.JStr "aws");
            ("args", JS.JArr [JS.JStr "eks"; JS.JStr "get-token";
                              JS.JStr "--cluster-name"; JS.JStr name])
          ])
        ])
      ]
    ])
  ].

Definition kubeconfig (cluster : Cluster) : Output JS.json :=
  pulumi.apply kubeconfig_callback
    (pulumi.all3 (endpoint cluster) (certificateAuthority cluster) (name cluster)).

(** lines 160-162 *)
Definition provider (cluster : Cluster) : Provider :=
  {| provider_name := "k8s-provider";
     provider_kubeconfig := pulumi.apply JS.JSON_stringify (kubeconfig cluster) |}.

(** lines 190, 202, 244, 256: the options of the four Kubernetes
    resources. *)
Definition backEndDeployment_opts (cluster : Cluster) : ResourceOptions :=
  {| opt_provider := Some (provider cluster); opt_dependsOn := [] |}.

Definition backEndService_opts (cluster : Cluster) : ResourceOptions :=
  {| opt_provider := Some (provider cluster); opt_dependsOn := [] |}.

Definition frontEndDeployment_opts (cluster : Cluster) : ResourceOptions :=
  {| opt_provider := Some (provider cluster);
     opt_dependsOn := ["backend-service"] |}.

Definition frontEndService_opts (cluster : Cluster) : ResourceOptions :=
  {| opt_provider := Some (provider cluster); opt_dependsOn := [] |}.

(** lines 211-213 *)
Definition apiUrl_callback (ingress : Ingress) : string :=
  if JS.truthy (first_hostname ingress)
  then "http://" ++ JS.to_string (first_hostname ingress) ++ ":5050"
  else "".

Definition apiUrl (backEndService : Service) : Output string :=
  pulumi.apply apiUrl_callback (status_loadBalancer_ingress backEndService).

(** line 237: the environment of the frontend container. *)
Definition frontEnd_env (backEndService : Service)
  : list (string * Output string) :=
  [("API_URL", apiUrl backEndService)].

(** line 263 *)
Definition kubeconfigOut (cluster : Cluster) : Output JS.json :=
  kubeconfig cluster.


(** lines 269-271 *)
Definition backEndUrl_callback (ingress : Ingress) : string :=
  if JS.truthy (first_hostname ingress)
  then "http://" ++ JS.to_string (first_hostname ingress) ++ ":5050"
  else "pending...".

Definition backEndUrl (backEndService : Service) : Output string :=
  pulumi.apply backEndUrl_callback (status_loadBalancer_ingress backEndService).

(** lines 273-275 *)
Definition frontEndUrl_callback (ingress : Ingress) : string :=
  if JS.truthy (first_hostname ingress)
  then "http://" ++ JS.to_string (first_hostname ingress)
  else "pending...".

Definition frontEndUrl (frontEndService : Service) : Output string :=
  pulumi.apply frontEndUrl_callback (status_loadBalancer_ingress frontEndService).

End IndexTs.

(** ** src/unnamed/part_000 *)

Module Part000.

(** lines 121-148 *)
Definition kubeconfig_callback
  (args : string * CertificateAuthority * string) : JS.json :=
  let '(endpoint, certAuth, name) := args in
  JS.JObj [
    ("apiVersion", JS.JStr "v1");
    ("clusters", JS.JArr [
      JS.JObj [
        ("cluster", JS.JObj [
          ("server", JS.JStr endpoint);
          ("certificate-authority-data", JS.JStr (data certAuth))
        ]);
        ("name", JS.JStr "kubernetes")
      ]
    ]);
    ("contexts", JS.JArr [
      JS.JObj [
        ("context", JS.JObj [
          ("cluster", JS.JStr "kubernetes");
          ("user", JS.JStr "aws")
        ]);
        ("name", JS.JStr "aws")
      ]
    ]);
    ("current-context", JS.JStr "aws");
    ("kind", JS.JStr "Config");
    ("users", JS.JArr [
      JS.JObj [
        ("name", JS.JStr "aws");
        ("user", JS.JObj [
          ("exec", JS.JObj [
            ("apiVersion", JS.JStr "client.authentication.k8s.io/v1beta1");
            ("command", JS.JStr "aws");
            ("args", JS.JArr [JS.JStr "eks"; JS.JStr "get-token";
                              JS.JStr "--cluster-name"; JS.JStr name])
          ])
        ])
      ]
    ])
  ].

Definition kubeconfig (cluster : Cluster) : Output JS.json :=
  pulumi.apply kubeconfig_callback
    (pulumi.all3 (endpoint cluster) (certificateAuthority cluster) (name cluster)).

(** lines 150-152 *)
Definition provider (cluster : Cluster) : Provider :=
  {| provider_name := "k8s-provider";
     provider_kubeconfig := pulumi.apply JS.JSON_stringify (kubeconfig cluster) |}.

(** lines 173, 181, 208, 216 *)
Definition backEndDeployment_opts (cluster : Cluster) : ResourceOptions :=
  {| opt_provider := Some (provider cluster); opt_dependsOn := [] |}.

Definition backEndService_opts (cluster : Cluster) : ResourceOptions :=
  {| opt_provider := Some (provider cluster); opt_dependsOn := [] |}.

Definition frontEndDeployment_opts (cluster : Cluster) : ResourceOptions :=
  {| opt_provider := Some (provider cluster); opt_dependsOn := [] |}.

Definition frontEndService_opts (cluster : Cluster) : ResourceOptions :=
  {| opt_provider := Some (provider cluster); opt_dependsOn := [] |}.

(** line 222 *)
Definition kubeconfigOut (cluster : Cluster) : Output JS.json :=
  kubeconfig cluster.

(** lines 224-229 *)
Definition frontEndUrl_callback (ingress : Ingress) : string :=
  if JS.truthy (first_hostname ingress)
  then "http://" ++ JS.to_string (first_hostname ingress)
  else "pending...".

Definition frontEndUrl (frontEndService : Service) : Output string :=
  pulumi.apply frontEndUrl_callback (status_loadBalancer_ingress frontEndService).

End Part000.

(** ** src/unnamed/part_001, the IRSA revision *)

Module Part001.

(** lines 156-171: the object handed to [JSON.stringify]. *)
Definition assumeRolePolicy_document (url arn : string) : JS.json :=
  JS.JObj [
    ("Version", JS.JStr "2012-10-17");
    ("Statement", JS.JArr [
      JS.JObj [
        ("Effect", JS.JStr "Allow");
        ("Principal", JS.JObj [("Federated", JS.JStr arn)]);
        ("Action", JS.JStr "sts:AssumeRoleWithWebIdentity");
        ("Condition", JS.JObj [
          ("StringEquals", JS.JObj [
            (JS.replace url "https://" "" ++ ":sub",
             JS.JStr "system:serviceaccount:default:hello-pulumi-app-sa")
          ])
        ])
      ]
    ])
  ].

(** lines 155-172 *)
Definition assumeRolePolicy_callback (args : string * string) : string :=
  let '(url, arn) := args in
  JS.JSON_stringify (assumeRolePolicy_document url arn).

(** lines 154-173: the [assumeRolePolicy] argument of [appConfigRole]. *)
Definition appConfigRole_assumeRolePolicy
  (oidcProvider : OpenIdConnectProvider) : Output string :=
  pulumi.apply assumeRolePolicy_callback
    (pulumi.all2 (url oidcProvider) (arn oidcProvider)).

End Part001.

(** ** Readings of a service status *)

(** The two readings of a status the URL callbacks distinguish.  A hostname
    that is the empty string counts as no hostname: the conditional tests
    truthiness. *)
Definition no_hostname (ingress : Ingress) : Prop :=
  ingress = None
  \/ ingress = Some []
  \/ exists entry rest,
       ingress = Some (entry :: rest)
       /\ (hostname entry = None \/ hostname entry = Some "").

Definition hostname_present (ingress : Ingress) (h : string) : Prop :=
  exists entry rest,
    ingress = Some (entry :: rest) /\ hostname entry = Some h /\ h <> "".

(** [s] with the prefix [p] taken off, when [s] begins with [p]. *)
Definition without_prefix (p s : string) : option string :=
  if prefix p s
  then Some (substring (String.length p) (String.length s - String.length p) s)
  else None.

(** ** Places in the kubeconfig document *)

(** Where the three cluster outputs sit in the kubeconfig document. *)
Definition server_path : list JS.access :=
  [JS.Key "clusters"; JS.Idx 0; JS.Key "cluster"; JS.Key "server"].

Definition certificate_path : list JS.access :=
  [JS.Key "clusters"; JS.Idx 0; JS.Key "cluster";
   JS.Key "certificate-authority-data"].

Definition exec_args_path : list JS.access :=
  [JS.Key "users"; JS.Idx 0; JS.Key "user"; JS.Key "exec"; JS.Key "args"].

(** ** Sample inputs *)

(** A cluster as the engine reports it once created. *)
Definition sample_cluster : Cluster :=
  {| name := Resolved "my-cluster-4f2a91c";
     endpoint := Resolved "https://3A7C.gr7.us-east-1.eks.amazonaws.com";
     certificateAuthority := Resolved {| data := "LS0tLS1CRUdJTiBDRVJUSUZJQ0FURS0tLS0t" |};
     version := Resolved "1.29";
     identities_oidc_issuer :=
       Resolved "https://oidc.eks.us-east-1.amazonaws.com/id/3A7C" |}.

(** The same cluster while its endpoint is not known yet. *)
Definition creating_cluster : Cluster :=
  {| name := Resolved "my-cluster-4f2a91c";
     endpoint := Unresolved;
     certificateAuthority := Unresolved;
     version := Resolved "1.29";
     identities_oidc_issuer := Unresolved |}.

Definition sample_oidcProvider : OpenIdConnectProvider :=
  {| url := Resolved "https://oidc.eks.us-east-1.amazonaws.com/id/3A7C";
     arn := Resolved "arn:aws:iam::123456789012:oidc-provider/oidc.eks.us-east-1.amazonaws.com/id/3A7C" |}.

(** A service whose load balancer has a hostname, one that has none yet,
    one whose load balancer reports an address only, and one with an empty
    ingress list. *)
Definition ready_service : Service :=
  {| status_loadBalancer_ingress :=
       Resolved (Some [ {| hostname := Some "a1b2c3.us-east-1.elb.amazonaws.com";
                           ip := None |} ]) |}.

Definition pending_service : Service :=
  {| status_loadBalancer_ingress := Resolved None |}.

Definition ip_only_service : Service :=
  {| status_loadBalancer_ingress :=
       Resolved (Some [ {| hostname := None; ip := Some "203.0.113.10" |} ]) |}.

Definition empty_ingress_service : Service :=
  {| status_loadBalancer_ingress := Resolved (Some []) |}.

(** ** The node role policy attachments *)

(** src/index.ts lines 71-78 and 349-356, src/unnamed/part_000 lines 73-78,
    src/unnamed/part_001 lines 73-80: the same loop in every program. *)
Module NodePolicies.

Record RolePolicyAttachment : Type := {
  attachment_name : string;
  role : Output string;
  policyArn : string
}.

(** [`${i}`] for an array index: its decimal digits. *)
Definition number_to_string (i : nat) : string :=
  NilEmpty.string_of_uint (Nat.to_uint i).

(** [array.forEach(callback)]: the callback is applied to each element and
    its index, in order; what it creates is collected. *)
Fixpoint forEach_from {A B : Type} (i : nat) (callback : A -> nat -> B)
  (array : list A) : list B :=
  match array with
  | [] => []
  | x :: rest => callback x i :: forEach_from (S i) callback rest
  end.

Definition forEach {A B : Type} (callback : A -> nat -> B) (array : list A)
  : list B :=
  forEach_from 0 callback array.

(** The callback of the loop. *)
Definition attach (nodeRole_name : Output string) (policyName : string)
  (i : nat) : RolePolicyAttachment :=
  {| attachment_name := "nodePolicyAttach-" ++ number_to_string i;
     role := nodeRole_name;
     policyArn := "arn:aws:iam::aws:policy/" ++ policyName |}.

(** The array the programs loop over. *)
Definition policyNames : list string :=
  ["AmazonEKSWorkerNodePolicy"; "AmazonEKS_CNI_Policy";
   "AmazonEC2ContainerRegistryReadOnly"].

Definition attachments (nodeRole_name : Output string)
  (policies : list string) : list RolePolicyAttachment :=
  forEach (attach nodeRole_name) policies.

(** The names of the other role policy attachments the programs declare
    (the two of the cluster role; appConfigRoleAttach in part_001). *)
Definition other_attachment_names : list string :=
  ["clusterPolicyAttach"; "clusterServicePolicyAttach"; "appConfigRoleAttach"].

End NodePolicies.

(** ** Availability zones of the two subnets *)

(** src/index.ts lines 285, 296 and 303; src/unnamed/part_001 lines 9, 20
    and 27. *)
Module Zones.

(** What [aws.getAvailabilityZones] resolves to: the field the programs
    read. *)
Record GetAvailabilityZonesResult : Type := {
  names : list string
}.

(** [pulumi.output(azs).apply(z => z.names[0])]; [None] is [undefined]. *)
Definition subnet1_availabilityZone (azs : Output GetAvailabilityZonesResult)
  : Output (option string) :=
  pulumi.apply (fun z => nth_error (names z) 0) azs.

(** [pulumi.output(azs).apply(z => z.names[1])] *)
Definition subnet2_availabilityZone (azs : Output GetAvailabilityZonesResult)
  : Output (option string) :=
  pulumi.apply (fun z => nth_error (names z) 1) azs.

End Zones.

(** ** The in-cluster API URL of part_000 *)

(** src/unnamed/part_000 lines 198-203 *)
Module ClusterLocal.

(** [service.metadata]: the fields the callback reads. *)
Record ObjectMeta : Type := {
  name : string;
  namespace : string
}.

Definition API_URL_callback (m : ObjectMeta) : string :=
  "http://" ++ name m ++ "." ++ namespace m ++ ".svc.cluster.local:5050".

Definition API_URL (backEndService_metadata : Output ObjectMeta)
  : Output string :=
  pulumi.apply API_URL_callback backEndService_metadata.

(** A name with no dot in it, as the names of services and namespaces are. *)
Fixpoint dot_free (s : string) : bool :=
  match s with
  | EmptyString => true
  | String c rest => negb (Ascii.eqb c "."%char) && dot_free rest
  end.

End ClusterLocal.

(** ** Reading back what [JSON.stringify] wrote *)

(** A reader for the texts [JS.JSON_stringify] produces (no white space,
    strings, arrays and objects only).  The programs do not read JSON; the
    reader serves to show that the texts they write lose nothing. *)
Module Reader.

Definition is_dquote (c : ascii) : bool := Ascii.eqb c "034"%char.
Definition is_backslash (c : ascii) : bool := Ascii.eqb c "092"%char.

Definition hex_value (c : ascii) : option nat :=
  let n := nat_of_ascii c in
  if (48 <=? n)%nat && (n <=? 57)%nat then Some (n - 48)
  else if (97 <=? n)%nat && (n <=? 102)%nat then Some (n - 87)
  else None.

Definition push (c : ascii) (r : option (string * string))
  : option (string * string) :=
  match r with
  | Some (s, rest) => Some (String c s, rest)
  | None => None
  end.

(** The characters of a string up to its closing quote, escapes undone, and
    what follows the quote. *)
Fixpoint read_chars (s : string) : option (string * string) :=
  match s with
  | EmptyString => None
  | String c rest =>
      if is_dquote c then Some (EmptyString, rest)
      else if is_backslash c then
        match rest with
        | EmptyString => None
        | String e rest1 =>
            if Ascii.eqb e "b" then push (ascii_of_nat 8) (read_chars rest1)
            else if Ascii.eqb e "t" then push (ascii_of_nat 9) (read_chars rest1)
            else if Ascii.eqb e "n" then push (ascii_of_nat 10) (read_chars rest1)
            else if Ascii.eqb e "f" then push (ascii_of_nat 12) (read_chars rest1)
            else if Ascii.eqb e "r" then push (ascii_of_nat 13) (read_chars rest1)
            else if is_dquote e then push (ascii_of_nat 34) (read_chars rest1)
            else if is_backslash e then push (ascii_of_nat 92) (read_chars rest1)
            else if Ascii.eqb e "u" then
              match rest1 with
              | String z1 (String z2 (String h (String l rest2))) =>
                  if Ascii.eqb z1 "0" && Ascii.eqb z2 "0" then
                    match hex_value h, hex_value l with
                    | Some x, Some y => push (ascii_of_nat (16 * x + y)) (read_chars rest2)
                    | _, _ => None
                    end
                  else None
              | _ => None
              end
            else None
        end
      else push c (read_chars rest)
  end.

(** A value, and what follows it.  [fuel] bounds the nesting and the number
    of elements read. *)
Fixpoint read_value (fuel : nat) (s : string) : option (JS.json * string) :=
  match fuel with
  | 0 => None
  | S fuel' =>
      match s with
      | EmptyString => None
      | String c rest =>
          if is_dquote c then
            match read_chars rest with
            | Some (str, r) => Some (JS.JStr str, r)
            | None => None
            end
          else if Ascii.eqb c "[" then
            match rest with
            | EmptyString => None
            | String c' r' =>
                if Ascii.eqb c' "]" then Some (JS.JArr [], r')
                else
                  match read_items fuel' rest with
                  | Some (items, r) => Some (JS.JArr items, r)
                  | None => None
                  end
            end
          else if Ascii.eqb c "{" then
            match rest with
            | EmptyString => None
            | String c' r' =>
                if Ascii.eqb c' "}" then Some (JS.JObj [], r')
                else
                  match read_props fuel' rest with
                  | Some (props, r) => Some (JS.JObj props, r)
                  | None => None
                  end
            end
          else None
      end
  end

with read_items (fuel : nat) (s : string) : option (list JS.json * string) :=
  match fuel with
  | 0 => None
  | S fuel' =>
      match read_value fuel' s with
      | Some (v, String c r) =>
          if Ascii.eqb c "," then
            match read_items fuel' r with
            | Some (vs, r') => Some (v :: vs, r')
            | None => None
            end
          else if Ascii.eqb c "]" then Some ([v], r)
          else None
      | _ => None
      end
  end

with read_props (fuel : nat) (s : string)
  : option (list (string * JS.json) * string) :=
  match fuel with
  | 0 => None
  | S fuel' =>
      match s with
      | EmptyString => None
      | String q rest =>
          if is_dquote q then
            match read_chars rest with
            | Some (k, String colon r1) =>
                if Ascii.eqb colon ":" then
                  match read_value fuel' r1 with
                  | Some (v, String c r2) =>
                      if Ascii.eqb c "," then
                        match read_props fuel' r2 with
                        | Some (kvs, r') => Some ((k, v) :: kvs, r')
                        | None => None
                        end
                      else if Ascii.eqb c "}" then Some ([(k, v)], r2)
                      else None
                  | _ => None
                  end
                else None
            | _ => None
            end
          else None
      end
  end.

(** How much fuel the text of a value needs. *)
Fixpoint weight (j : JS.json) : nat :=
  match j with
  | JS.JStr _ => 1
  | JS.JArr items =>
      S ((fix ws (l : list JS.json) : nat :=
            match l with
            | [] => 0
            | x :: r => S (weight x + ws r)
            end) items)
  | JS.JObj props =>
      S ((fix ws (l : list (string * JS.json)) : nat :=
            match l with
            | [] => 0
            | (_, v) :: r => S (weight v + ws r)
            end) props)
  end.

Fixpoint weight_items (l : list JS.json) : nat :=
  match l with
  | [] => 0
  | x :: r => S (weight x + weight_items r)
  end.

Fixpoint weight_props (l : list (string * JS.json)) : nat :=
  match l with
  | [] => 0
  | (_, v) :: r => S (weight v + weight_props r)
  end.

(** The text of the elements of an array and of the properties of an
    object, as [JS.JSON_stringify] lays them out between the brackets. *)
Definition items_text (l : list JS.json) : string :=
  String.concat "," (map JS.JSON_stringify l).

Definition prop_text (kv : string * JS.json) : string :=
  let (k, v) := kv in JS.quote k ++ ":" ++ JS.JSON_stringify v.

Definition props_text (l : list (string * JS.json)) : string :=
  String.concat "," (map prop_text l).

End Reader.

(** ** The api-url-hash annotation *)

(** [Buffer.from(text)] and [buffer.toString("base64")] of Node.js, on
    bytes as numbers below 256. *)
Module Buffer.

(** UTF-8 of one character: one byte below 128, two bytes from 128 to 255. *)
Definition utf8 (c : ascii) : list nat :=
  let n := nat_of_ascii c in
  if (n <? 128)%nat then [n] else [192 + n / 64; 128 + n mod 64].

(** [Buffer.from(text)]: the UTF-8 bytes of the text. *)
Fixpoint from (text : string) : list nat :=
  match text with
  | EmptyString => []
  | String c rest => utf8 c ++ from rest
  end.

(** The base64 alphabet: A-Z, a-z, 0-9, plus and slash. *)
Definition base64_char (n : nat) : ascii :=
  if (n <? 26)%nat then ascii_of_nat (65 + n)
  else if (n <? 52)%nat then ascii_of_nat (97 + (n - 26))
  else if (n <? 62)%nat then ascii_of_nat (48 + (n - 52))
  else if (n =? 62)%nat then "+"%char
  else "/"%char.

(** [buffer.toString("base64")]: three bytes give four characters; one or
    two bytes left over give two or three characters and padding. *)
Fixpoint toString_base64 (bytes : list nat) : string :=
  match bytes with
  | [] => EmptyString
  | [b0] =>
      String (base64_char (b0 / 4))
        (String (base64_char ((b0 mod 4) * 16)) "==")
  | [b0; b1] =>
      String (base64_char (b0 / 4))
        (String (base64_char ((b0 mod 4) * 16 + b1 / 16))
           (String (base64_char ((b1 mod 16) * 4)) "="))
  | b0 :: b1 :: b2 :: rest =>
      String (base64_char (b0 / 4))
        (String (base64_char ((b0 mod 4) * 16 + b1 / 16))
           (String (base64_char ((b1 mod 16) * 4 + b2 / 64))
              (String (base64_char (b2 mod 64)) (toString_base64 rest))))
  end.

(** The way back, used to show that the annotation loses nothing. *)
Definition base64_value (c : ascii) : option nat :=
  let n := nat_of_ascii c in
  if (65 <=? n)%nat && (n <=? 90)%nat then Some (n - 65)
  else if (97 <=? n)%nat && (n <=? 122)%nat then Some (n - 97 + 26)
  else if (48 <=? n)%nat && (n <=? 57)%nat then Some (n - 48 + 52)
  else if (n =? 43)%nat then Some 62
  else if (n =? 47)%nat then Some 63
  else None.

Fixpoint of_base64 (s : string) : option (list nat) :=
  match s with
  | EmptyString => Some []
  | String c0 (String c1 (String c2 (String c3 rest))) =>
      match base64_value c0, base64_value c1 with
      | Some v0, Some v1 =>
          let b0 := v0 * 4 + v1 / 16 in
          if Ascii.eqb c2 "=" then
            if Ascii.eqb c3 "=" then
              match rest with
              | EmptyString => Some [b0]
              | _ => None
              end
            else None
          else
            match base64_value c2 with
            | Some v2 =>
                let b1 := (v1 mod 16) * 16 + v2 / 4 in
                if Ascii.eqb c3 "=" then
                  match rest with
                  | EmptyString => Some [b0; b1]
                  | _ => None
                  end
                else
                  match base64_value c3, of_base64 rest with
                  | Some v3, Some bytes =>
                      Some (b0 :: b1 :: (v2 mod 4) * 64 + v3 :: bytes)
                  | _, _ => None
                  end
            | None => None
            end
      | _, _ => None
      end
  | _ => None
  end.

Definition push (c : ascii) (r : option string) : option string :=
  match r with
  | Some s => Some (String c s)
  | None => None
  end.

Fixpoint to_text (bytes : list nat) : option string :=
  match bytes with
  | [] => Some EmptyString
  | b :: rest =>
      if (b <? 128)%nat then push (ascii_of_nat b) (to_text rest)
      else
        match rest with
        | b' :: rest' =>
            push (ascii_of_nat ((b - 192) * 64 + (b' - 128))) (to_text rest')
        | [] => None
        end
  end.

End Buffer.

(** src/index.ts lines 224-229: the annotation of the frontend pod
    template. *)
Module Annotations.

Definition api_url_hash_callback (url : string) : string :=
  Buffer.toString_base64 (Buffer.from url).

Definition api_url_hash (backEndService : Service) : Output string :=
  pulumi.apply api_url_hash_callback (IndexTs.apiUrl backEndService).

Definition frontEnd_annotations (backEndService : Service)
  : list (string * Output string) :=
  [("api-url-hash", api_url_hash backEndService)].

End Annotations.

(** ** More sample inputs *)

(** The sample cluster after an upgrade: only its version differs. *)
Definition upgraded_cluster : Cluster :=
  {| name := Resolved "my-cluster-4f2a91c";
     endpoint := Resolved "https://3A7C.gr7.us-east-1.eks.amazonaws.com";
     certificateAuthority := Resolved {| data := "LS0tLS1CRUdJTiBDRVJUSUZJQ0FURS0tLS0t" |};
     version := Resolved "1.30";
     identities_oidc_issuer :=
       Resolved "https://oidc.eks.us-east-1.amazonaws.com/id/3A7C" |}.

Definition sample_zones : Zones.GetAvailabilityZonesResult :=
  {| Zones.names := ["us-east-1a"; "us-east-1b"; "us-east-1c"] |}.

Definition sample_metadata : ClusterLocal.ObjectMeta :=
  {| ClusterLocal.name := "backend-service-3f9a1c2e";
     ClusterLocal.namespace := "default" |}.

(** ** A run of the callbacks *)

(** Modelled from the spec: what a run does with the callbacks handed to
    [apply], which the [@pulumi/pulumi] package decides and which is not
    part of the sources.  Spec section 3, OutputValue: once its inputs are
    resolved a value is computed once and kept for the run.  An [apply]
    whose source is resolved invokes its callback, once, and the output it
    returns holds the result from then on; an [apply] whose source is not
    resolved invokes nothing.  The trace lists the callbacks invoked. *)
Module Run.

Definition Trace : Type := list string.

Definition M (A : Type) : Type := Trace -> A * Trace.



(** [o.apply(f)], with the name under which the trace records [f]. *)
Definition apply {A B : Type} (callback : string) (f : A -> B) (o : Output A)
  : M (Output B) :=
  fun t =>
    match o with
    | Unresolved => (Unresolved, t)
    | Resolved v => (Resolved (f v), (t ++ [callback])%list)
    end.


End Run.

(** The kubeconfig and what is bound to it, as the programs bind them: one
    constant [kubeconfig], used by the provider, by the export
    [kubeconfigOut] and (in index.ts) by [kubeconfigCmd]. *)
Module Wiring.





End Wiring.


(** ** The condition key as the specification words it *)



(** * Properties *)

Lemma first_hostname_absent (ingress : Ingress) :
  no_hostname ingress -> JS.truthy (first_hostname ingress) = false.
Proof.
  intros [-> | [-> | (entry & rest & -> & [H | H])]]; simpl; try reflexivity;
    rewrite H; reflexivity.
Qed.

Lemma first_hostname_present (ingress : Ingress) (h : string) :
  hostname_present ingress h ->
  first_hostname ingress = Some h /\ JS.truthy (Some h) = true.
Proof.
  intros (entry & rest & -> & Hh & Hne). simpl. split; [exact Hh |].
  destruct h; [congruence | reflexivity].
Qed.

(** Every status falls under one of the two readings. *)
Lemma ingress_cases (ingress : Ingress) :
  no_hostname ingress \/ exists h, hostname_present ingress h.
Proof.
  destruct ingress as [[| entry rest] |].
  - left. right. left. reflexivity.
  - destruct (hostname entry) as [[| c h] |] eqn:E.
    + left. right. right. exists entry, rest. auto.
    + right. exists (String c h), entry, rest. repeat split; [exact E | discriminate].
    + left. right. right. exists entry, rest. auto.
  - left. left. reflexivity.
Qed.

(** ** Strings: [substring], [prefix] and [JS.replace] *)

Lemma substring_0_0 (s : string) : substring 0 0 s = EmptyString.
Proof. destruct s; reflexivity. Qed.

Lemma substring_whole (s : string) : substring 0 (String.length s) s = s.
Proof.
  induction s as [| c s IH]; simpl; [reflexivity | now rewrite IH].
Qed.

Lemma substring_skip_app (p r : string) (m : nat) :
  substring (String.length p) m (p ++ r) = substring 0 m r.
Proof.
  induction p as [| c p IH]; simpl; [reflexivity | exact IH].
Qed.

Lemma length_app (p r : string) :
  String.length (p ++ r) = String.length p + String.length r.
Proof.
  induction p as [| c p IH]; simpl; [reflexivity | now rewrite IH].
Qed.

Lemma prefix_app (p r : string) : prefix p (p ++ r) = true.
Proof.
  induction p as [| c p IH]; simpl; [now destruct r |].
  destruct (ascii_dec c c) as [_ | Hne]; [exact IH | now elim Hne].
Qed.

Lemma prefix_split (p s : string) :
  prefix p s = true ->
  s = p ++ substring (String.length p) (String.length s - String.length p) s.
Proof.
  revert s. induction p as [| c p IH]; intros s H; simpl.
  - rewrite Nat.sub_0_r. destruct s; simpl; [reflexivity |].
    now rewrite substring_whole.
  - destruct s as [| d s]; simpl in H; [discriminate |].
    destruct (ascii_dec c d) as [-> | _]; [| discriminate].
    simpl. f_equal. apply IH, H.
Qed.

Lemma without_prefix_Some (p s r : string) :
  without_prefix p s = Some r <-> s = p ++ r.
Proof.
  unfold without_prefix. split.
  - destruct (prefix p s) eqn:E; [| discriminate].
    intros [= <-]. apply prefix_split, E.
  - intros ->. rewrite prefix_app, length_app.
    replace (String.length p + String.length r - String.length p)
      with (String.length r) by lia.
    now rewrite substring_skip_app, substring_whole.
Qed.

Lemma index_0_prefix (p s : string) :
  prefix p s = true -> index 0 p s = Some 0.
Proof.
  destruct s as [| c s]; simpl; intros H.
  - destruct p; [reflexivity | discriminate].
  - now rewrite H.
Qed.

Lemma length_substring_0 (s : string) (n : nat) :
  n <= String.length s -> String.length (substring 0 n s) = n.
Proof.
  revert n. induction s as [| c s IH]; intros [| n] H; simpl in *; try lia.
  rewrite IH; lia.
Qed.

Lemma substring_tail (s : string) (n : nat) :
  n <= String.length s ->
  s = substring 0 n s ++ substring n (String.length s - n) s.
Proof.
  revert n. induction s as [| c s IH]; intros [| n] H; simpl in *; try lia;
    try reflexivity.
  - now rewrite substring_whole.
  - f_equal. apply IH. lia.
Qed.

Lemma substring_mid (s : string) (n a : nat) :
  n + a <= String.length s ->
  substring n (String.length s - n) s
  = substring n a s ++ substring (n + a) (String.length s - (n + a)) s.
Proof.
  revert n a. induction s as [| c s IH]; intros n a H.
  - simpl in H. assert (n = 0) by lia. assert (a = 0) by lia. now subst.
  - destruct n as [| n]; simpl.
    + destruct a as [| a]; simpl; [reflexivity |].
      f_equal. simpl in H.
      specialize (IH 0 a). rewrite !Nat.sub_0_r in IH. simpl in IH.
      apply IH. lia.
    + apply IH. simpl in H. lia.
Qed.

(** An occurrence of a non-empty pattern lies inside the string. *)
Lemma substring_found_bound (s pat : string) (pos : nat) :
  pat <> EmptyString ->
  substring pos (String.length pat) s = pat ->
  pos + String.length pat <= String.length s.
Proof.
  revert pos pat. induction s as [| c s IH]; intros pos pat Hne H.
  - destruct pos; simpl in H.
    + destruct pat; [now elim Hne | simpl in H; discriminate].
    + now elim Hne.
  - destruct pos as [| pos]; simpl in H.
    + destruct pat as [| d pat]; [now elim Hne |]. simpl in H.
      injection H as _ H. destruct pat as [| d' pat]; [simpl; lia |].
      assert (0 + String.length (String d' pat) <= String.length s)
        by (apply IH; [discriminate | exact H]).
      simpl in *. lia.
    + specialize (IH pos pat Hne H). simpl. lia.
Qed.

Lemma index_0_empty (s : string) : index 0 EmptyString s = Some 0.
Proof. destruct s; reflexivity. Qed.

(** What [JS.replace] does when the pattern occurs: the text before the
    first occurrence, the replacement, the text after it. *)
Lemma replace_found (s pat rep : string) (pos : nat) :
  index 0 pat s = Some pos ->
  exists pre post,
    s = pre ++ pat ++ post
    /\ String.length pre = pos
    /\ (forall p, p < pos -> substring p (String.length pat) s <> pat)
    /\ JS.replace s pat rep = pre ++ rep ++ post.
Proof.
  intros Hi. unfold JS.replace. rewrite Hi.
  pose proof (index_correct1 _ _ _ _ Hi) as Hsub.
  assert (Hle : pos + String.length pat <= String.length s).
  { destruct pat as [| d pat].
    - rewrite index_0_empty in Hi. injection Hi as <-. simpl. lia.
    - apply substring_found_bound; [discriminate | exact Hsub]. }
  exists (substring 0 pos s),
    (substring (pos + String.length pat)
       (String.length s - (pos + String.length pat)) s).
  split; [| split; [| split; [| reflexivity]]].
  - etransitivity; [apply (substring_tail s pos); lia |]. f_equal.
    rewrite (substring_mid s pos (String.length pat) Hle). now rewrite Hsub.
  - apply length_substring_0. lia.
  - intros p Hp. apply (index_correct2 _ _ _ _ Hi); lia.
Qed.

(** A string that begins with the pattern loses exactly that prefix. *)
Lemma replace_at_prefix (p r rep : string) :
  JS.replace (p ++ r) p rep = rep ++ r.
Proof.
  unfold JS.replace. rewrite (index_0_prefix _ _ (prefix_app p r)).
  rewrite substring_0_0, length_app. simpl.
  replace (String.length p + String.length r - String.length p)
    with (String.length r) by lia.
  now rewrite substring_skip_app, substring_whole.
Qed.

(** A string in which the pattern does not occur is returned as it is. *)
Lemma replace_not_found (s pat rep : string) :
  index 0 pat s = None -> JS.replace s pat rep = s.
Proof. unfold JS.replace. now intros ->. Qed.

(** The pattern is looked for anywhere: an occurrence that is not a prefix
    is removed as well (the first one only). *)
Example replace_inner_occurrence :
  JS.replace "xhttps://a/https://b" "https://" "" = "xa/https://b".
Proof. reflexivity. Qed.

(** ** Outputs *)

Lemma apply_resolved {A B : Type} (f : A -> B) (o : Output A) (v : A) :
  o = Resolved v -> pulumi.apply f o = Resolved (f v).
Proof. now intros ->. Qed.



Lemma all3_resolved_inv {A B C : Type}
  (a : Output A) (b : Output B) (c : Output C) (v : A * B * C) :
  pulumi.all3 a b c = Resolved v ->
  a = Resolved (fst (fst v)) /\ b = Resolved (snd (fst v)) /\ c = Resolved (snd v).
Proof. destruct a, b, c; simpl; try discriminate. now intros [= <-]. Qed.

(** ** The exported URLs *)

Lemma url_callbacks_absent (ingress : Ingress) :
  no_hostname ingress ->
  IndexTs.apiUrl_callback ingress = ""
  /\ IndexTs.backEndUrl_callback ingress = "pending..."
  /\ IndexTs.frontEndUrl_callback ingress = "pending..."
  /\ Part000.frontEndUrl_callback ingress = "pending...".
Proof.
  intros H. apply first_hostname_absent in H.
  unfold IndexTs.apiUrl_callback, IndexTs.backEndUrl_callback,
    IndexTs.frontEndUrl_callback, Part000.frontEndUrl_callback.
  rewrite H. repeat split.
Qed.

Lemma url_callbacks_present (ingress : Ingress) (h : string) :
  hostname_present ingress h ->
  IndexTs.apiUrl_callback ingress = "http://" ++ h ++ ":5050"
  /\ IndexTs.backEndUrl_callback ingress = "http://" ++ h ++ ":5050"
  /\ IndexTs.frontEndUrl_callback ingress = "http://" ++ h
  /\ Part000.frontEndUrl_callback ingress = "http://" ++ h.
Proof.
  intros H. apply first_hostname_present in H as [H1 H2].
  unfold IndexTs.apiUrl_callback, IndexTs.backEndUrl_callback,
    IndexTs.frontEndUrl_callback, Part000.frontEndUrl_callback.
  rewrite H1, H2. repeat split.
Qed.

(** C9.  Once the ingress lists of the backend and the frontend service are
    resolved: when the list is absent, or empty, or its first entry has no
    (non-empty) hostname, [backEndUrl] and [frontEndUrl] are the text
    pending... and the [apiUrl] handed to the frontend container as API_URL
    is the empty string; when the first entry has hostname [h], [backEndUrl]
    and [apiUrl] are http://h:5050 and [frontEndUrl] is http://h.  The
    [frontEndUrl] of part_000 agrees with the one of index.ts. *)
Theorem service_urls_from_ingress
  (backEndService frontEndService : Service) (bi fi : Ingress) :
  status_loadBalancer_ingress backEndService = Resolved bi ->
  status_loadBalancer_ingress frontEndService = Resolved fi ->
  (no_hostname bi ->
     IndexTs.backEndUrl backEndService = Resolved "pending..."
     /\ IndexTs.apiUrl backEndService = Resolved ""
     /\ IndexTs.frontEnd_env backEndService = [("API_URL", Resolved "")])
  /\ (no_hostname fi ->
     IndexTs.frontEndUrl frontEndService = Resolved "pending..."
     /\ Part000.frontEndUrl frontEndService = Resolved "pending...")
  /\ (forall h, hostname_present bi h ->
     IndexTs.backEndUrl backEndService = Resolved ("http://" ++ h ++ ":5050")
     /\ IndexTs.apiUrl backEndService = Resolved ("http://" ++ h ++ ":5050")
     /\ IndexTs.frontEnd_env backEndService
        = [("API_URL", Resolved ("http://" ++ h ++ ":5050"))])
  /\ (forall h, hostname_present fi h ->
     IndexTs.frontEndUrl frontEndService = Resolved ("http://" ++ h)
     /\ Part000.frontEndUrl frontEndService = Resolved ("http://" ++ h)).
Proof.
  intros Hb Hf.
  unfold IndexTs.frontEnd_env, IndexTs.backEndUrl, IndexTs.apiUrl,
    IndexTs.frontEndUrl, Part000.frontEndUrl.
  rewrite Hb, Hf. simpl.
  split; [| split; [| split]].
  - intros H. destruct (url_callbacks_absent bi H) as (-> & -> & _). auto.
  - intros H. destruct (url_callbacks_absent fi H) as (_ & _ & -> & ->). auto.
  - intros h H. destruct (url_callbacks_present bi h H) as (-> & -> & _). auto.
  - intros h H. destruct (url_callbacks_present fi h H) as (_ & _ & -> & ->). auto.
Qed.

(** ** The kubeconfig projection *)

Lemma kubeconfig_callback_fields (e : string) (ca : CertificateAuthority) (n : string) :
  let doc := IndexTs.kubeconfig_callback (e, ca, n) in
  JS.get_path server_path doc = Some (JS.JStr e)
  /\ JS.get_path certificate_path doc = Some (JS.JStr (data ca))
  /\ JS.get_path exec_args_path doc
     = Some (JS.JArr [JS.JStr "eks"; JS.JStr "get-token";
                      JS.JStr "--cluster-name"; JS.JStr n]).
Proof. repeat split. Qed.

(** The document determines the three values it was built from. *)
Lemma kubeconfig_callback_injective
  (a1 a2 : string * CertificateAuthority * string) :
  IndexTs.kubeconfig_callback a1 = IndexTs.kubeconfig_callback a2 -> a1 = a2.
Proof.
  destruct a1 as [[e1 [d1]] n1], a2 as [[e2 [d2]] n2]. simpl.
  intros H. injection H as -> -> ->. reflexivity.
Qed.

Lemma kubeconfig_same_in_part_000 (cluster : Cluster) :
  Part000.kubeconfig cluster = IndexTs.kubeconfig cluster.
Proof. reflexivity. Qed.

Lemma kubeconfig_resolved_inv (cluster : Cluster) (doc : JS.json) :
  IndexTs.kubeconfig cluster = Resolved doc ->
  exists e ca n,
    endpoint cluster = Resolved e
    /\ certificateAuthority cluster = Resolved ca
    /\ name cluster = Resolved n
    /\ doc = IndexTs.kubeconfig_callback (e, ca, n).
Proof.
  unfold IndexTs.kubeconfig.
  destruct (endpoint cluster) as [| e], (certificateAuthority cluster) as [| ca],
    (name cluster) as [| n]; simpl; try discriminate.
  intros [= <-]. now exists e, ca, n.
Qed.

(** ** The properties at the sample inputs *)

Example urls_ready :
  IndexTs.backEndUrl ready_service
  = Resolved "http://a1b2c3.us-east-1.elb.amazonaws.com:5050"
  /\ IndexTs.apiUrl ready_service
     = Resolved "http://a1b2c3.us-east-1.elb.amazonaws.com:5050"
  /\ IndexTs.frontEndUrl ready_service
     = Resolved "http://a1b2c3.us-east-1.elb.amazonaws.com".
Proof. repeat split. Qed.

Example urls_ip_only :
  IndexTs.backEndUrl ip_only_service = Resolved "pending..."
  /\ IndexTs.apiUrl ip_only_service = Resolved ""
  /\ Part000.frontEndUrl ip_only_service = Resolved "pending...".
Proof. repeat split. Qed.

Example urls_empty_ingress :
  IndexTs.backEndUrl empty_ingress_service = Resolved "pending..."
  /\ IndexTs.apiUrl empty_ingress_service = Resolved "".
Proof. repeat split. Qed.

Example kubeconfig_while_creating :
  IndexTs.kubeconfig creating_cluster = Unresolved
  /\ provider_kubeconfig (IndexTs.provider creating_cluster) = Unresolved.
Proof. split; reflexivity. Qed.

Example stringify_nested :
  JS.JSON_stringify (JS.JObj [("k", JS.JArr [JS.JStr "v"; JS.JStr "w"])])
  = "{" ++ JS.dquote ++ "k" ++ JS.dquote ++ ":["
        ++ JS.dquote ++ "v" ++ JS.dquote ++ ","
        ++ JS.dquote ++ "w" ++ JS.dquote ++ "]}".
Proof. reflexivity. Qed.

Example quote_escapes :
  JS.quote (String "010"%char (String "034"%char "a\b"))
  = JS.dquote ++ "\n\" ++ JS.dquote ++ "a\\b" ++ JS.dquote.
Proof. reflexivity. Qed.

Lemma service_urls_from_ingress_witness :
  (IndexTs.backEndUrl ready_service
   = Resolved "http://a1b2c3.us-east-1.elb.amazonaws.com:5050"
   /\ IndexTs.apiUrl ready_service
      = Resolved "http://a1b2c3.us-east-1.elb.amazonaws.com:5050")
  /\ (IndexTs.frontEndUrl pending_service = Resolved "pending..."
      /\ Part000.frontEndUrl pending_service = Resolved "pending...").
Proof.
  destruct (service_urls_from_ingress ready_service pending_service _ _
              eq_refl eq_refl) as (_ & Hf & Hb & _).
  split.
  - destruct (Hb "a1b2c3.us-east-1.elb.amazonaws.com") as (H1 & H2 & _).
    + eexists _, _. repeat split. discriminate.
    + split; [exact H1 | exact H2].
  - apply Hf. left. reflexivity.
Defined.

(** * Further properties of the programs *)

(** ** Strings: concatenation *)

Lemma append_assoc (a b c : string) : (a ++ b) ++ c = a ++ (b ++ c).
Proof.
  induction a as [| x a IH]; simpl; [reflexivity | now rewrite IH].
Qed.


Lemma append_inv_head (p x y : string) : p ++ x = p ++ y -> x = y.
Proof.
  induction p as [| c p IH]; simpl; [auto |].
  intros H. injection H as H. auto.
Qed.

Lemma append_inv_tail (x y p : string) : x ++ p = y ++ p -> x = y.
Proof.
  revert y. induction x as [| c x IH]; intros [| d y] H; simpl in H.
  - reflexivity.
  - apply (f_equal String.length) in H. simpl in H. rewrite length_app in H. lia.
  - apply (f_equal String.length) in H. simpl in H. rewrite length_app in H. lia.
  - injection H as -> H. f_equal. auto.
Qed.

(** ** The placeholder of the exported URLs *)

Lemma url_callbacks_cases (ingress : Ingress) :
  (no_hostname ingress
   /\ IndexTs.apiUrl_callback ingress = ""
   /\ IndexTs.backEndUrl_callback ingress = "pending..."
   /\ IndexTs.frontEndUrl_callback ingress = "pending..."
   /\ Part000.frontEndUrl_callback ingress = "pending...")
  \/ (exists h,
        hostname_present ingress h
        /\ IndexTs.apiUrl_callback ingress = "http://" ++ h ++ ":5050"
        /\ IndexTs.backEndUrl_callback ingress = "http://" ++ h ++ ":5050"
        /\ IndexTs.frontEndUrl_callback ingress = "http://" ++ h
        /\ Part000.frontEndUrl_callback ingress = "http://" ++ h).
Proof.
  destruct (ingress_cases ingress) as [H | [h H]].
  - left. split; [exact H | now apply url_callbacks_absent].
  - right. exists h. split; [exact H | now apply url_callbacks_present].
Qed.

Lemma no_hostname_not_present (ingress : Ingress) (h : string) :
  no_hostname ingress -> hostname_present ingress h -> False.
Proof.
  intros Hn (e & rest & He & Hh & Hne).
  destruct Hn as [-> | [-> | (e' & rest' & -> & [H | H])]];
    try discriminate; injection He as <- <-; congruence.
Qed.

(** X1.  The placeholder is unambiguous.  [backEndUrl] and [frontEndUrl]
    are the text pending... exactly when the status has no hostname, and
    [apiUrl] is empty exactly then; an exported URL is never empty; and
    when [apiUrl] is not empty it is the very text of [backEndUrl]. *)
Theorem url_placeholder_iff_no_hostname (ingress : Ingress) :
  (IndexTs.backEndUrl_callback ingress = "pending..." <-> no_hostname ingress)
  /\ (IndexTs.frontEndUrl_callback ingress = "pending..." <-> no_hostname ingress)
  /\ (Part000.frontEndUrl_callback ingress = "pending..." <-> no_hostname ingress)
  /\ (IndexTs.apiUrl_callback ingress = "" <-> no_hostname ingress)
  /\ IndexTs.backEndUrl_callback ingress <> ""
  /\ IndexTs.frontEndUrl_callback ingress <> ""
  /\ (IndexTs.apiUrl_callback ingress <> "" ->
      IndexTs.apiUrl_callback ingress = IndexTs.backEndUrl_callback ingress).
Proof.
  destruct (url_callbacks_cases ingress)
    as [(Hn & Ha & Hb & Hf & Hf') | (h & Hp & Ha & Hb & Hf & Hf')];
    rewrite Ha, Hb, Hf, Hf'.
  - repeat split; auto; try discriminate. intros H. now elim H.
  - repeat split; try discriminate; try reflexivity;
      try (intros H; exfalso; exact (no_hostname_not_present _ _ H Hp)).
Qed.

(** X2.  The URLs carry the hostname faithfully: two statuses with
    hostnames give the same [backEndUrl] (or the same [frontEndUrl]) only
    when the hostnames are equal, and for one status [backEndUrl] is
    [frontEndUrl] followed by the port. *)
Theorem urls_determine_hostname (i1 i2 : Ingress) (h1 h2 : string) :
  hostname_present i1 h1 ->
  hostname_present i2 h2 ->
  (IndexTs.backEndUrl_callback i1 = IndexTs.backEndUrl_callback i2 -> h1 = h2)
  /\ (IndexTs.apiUrl_callback i1 = IndexTs.apiUrl_callback i2 -> h1 = h2)
  /\ (IndexTs.frontEndUrl_callback i1 = IndexTs.frontEndUrl_callback i2 -> h1 = h2)
  /\ IndexTs.backEndUrl_callback i1 = IndexTs.frontEndUrl_callback i1 ++ ":5050".
Proof.
  intros H1 H2.
  destruct (url_callbacks_present i1 h1 H1) as (Ha1 & Hb1 & Hf1 & _).
  destruct (url_callbacks_present i2 h2 H2) as (Ha2 & Hb2 & Hf2 & _).
  rewrite Ha1, Ha2, Hb1, Hb2, Hf1, Hf2.
  repeat split.
  - intros H. apply append_inv_head in H. now apply append_inv_tail in H.
  - intros H. apply append_inv_head in H. now apply append_inv_tail in H.
  - intros H. now apply append_inv_head in H.
Qed.

(** ** The condition key of the trust policy, for any url *)

(** X3.  Whatever the url of the OIDC provider is, the StringEquals
    condition of the trust policy has one key, and the key is: the url
    itself followed by :sub when https:// occurs nowhere in it; otherwise
    the url with its first occurrence of https:// cut out (what stands
    before it is kept, later occurrences are kept), followed by :sub. *)
Theorem trust_policy_condition_key (u a : string) :
  exists key,
    JS.get_path [JS.Key "Statement"; JS.Idx 0; JS.Key "Condition";
                 JS.Key "StringEquals"]
      (Part001.assumeRolePolicy_document u a)
    = Some (JS.JObj
              [(key ++ ":sub",
                JS.JStr "system:serviceaccount:default:hello-pulumi-app-sa")])
    /\ (((forall p, substring p 8 u <> "https://") /\ key = u)
        \/ exists pre post,
             u = pre ++ "https://" ++ post
             /\ (forall p, p < String.length pre -> substring p 8 u <> "https://")
             /\ key = pre ++ post).
Proof.
  exists (JS.replace u "https://" ""). split; [reflexivity |].
  destruct (index 0 "https://" u) as [pos |] eqn:E.
  - right. destruct (replace_found u "https://" "" pos E)
      as (pre & post & Hu & Hlen & Hfirst & Hr).
    exists pre, post. repeat split; [exact Hu | | exact Hr].
    intros p Hp. apply Hfirst. now rewrite <- Hlen.
  - left. split; [| now apply replace_not_found].
    intros p. apply (index_correct3 0 p _ _ E); [discriminate | lia].
Qed.

(** ** The node role policy attachments *)

Lemma number_to_string_inj (i j : nat) :
  NodePolicies.number_to_string i = NodePolicies.number_to_string j -> i = j.
Proof.
  unfold NodePolicies.number_to_string. intros H.
  apply DecimalNat.Unsigned.to_uint_inj.
  apply (f_equal NilEmpty.uint_of_string) in H.
  rewrite !NilEmpty.usu in H. now injection H.
Qed.

Lemma attachment_name_inj (r : Output string) (p q : string) (i j : nat) :
  NodePolicies.attachment_name (NodePolicies.attach r p i)
  = NodePolicies.attachment_name (NodePolicies.attach r q j) ->
  i = j.
Proof.
  simpl. intros H. apply number_to_string_inj.
  injection H as H. exact H.
Qed.

Lemma forEach_from_nth {A B : Type} (f : A -> nat -> B) (l : list A) (k i : nat) :
  nth_error (NodePolicies.forEach_from k f l) i
  = option_map (fun x => f x (k + i)) (nth_error l i).
Proof.
  revert k i. induction l as [| x l IH]; intros k [| i]; simpl; try reflexivity.
  - now rewrite Nat.add_0_r.
  - rewrite IH. now rewrite Nat.add_succ_r.
Qed.

Lemma forEach_from_length {A B : Type} (f : A -> nat -> B) (l : list A) (k : nat) :
  List.length (NodePolicies.forEach_from k f l) = List.length l.
Proof.
  revert k. induction l as [| x l IH]; intros k; simpl; [reflexivity |].
  now rewrite IH.
Qed.

Lemma forEach_from_In {A B : Type} (f : A -> nat -> B) (l : list A) (k : nat) (y : B) :
  In y (NodePolicies.forEach_from k f l) ->
  exists x i, nth_error l i = Some x /\ y = f x (k + i).
Proof.
  intros H. apply In_nth_error in H as [i H].
  rewrite forEach_from_nth in H.
  destruct (nth_error l i) as [x |] eqn:E; [| discriminate].
  injection H as <-. now exists x, i.
Qed.

(** Two positions of the loop result agree on a key only if they are the
    same position, when the key determines the index. *)
Lemma forEach_from_NoDup {A B K : Type} (f : A -> nat -> B) (key : B -> K)
  (l : list A) (k : nat) :
  (forall x y i j, key (f x i) = key (f y j) -> i = j) ->
  NoDup (map key (NodePolicies.forEach_from k f l)).
Proof.
  intros Hinj. revert k. induction l as [| x l IH]; intros k; simpl.
  - constructor.
  - constructor; [| apply IH].
    intros Hin. apply in_map_iff in Hin as (y & Hy & Hin).
    apply forEach_from_In in Hin as (x' & i & _ & ->).
    apply Hinj in Hy. lia.
Qed.

(** X4.  For every list of policy names the loop declares one attachment
    per policy, in order; the attachment at index [i] is named
    nodePolicyAttach- followed by the decimal digits of [i], is attached to
    the node role, and its ARN is arn:aws:iam::aws:policy/ followed by the
    policy name.  The names are pairwise distinct, differ from the names of
    the other role policy attachments of the programs, and distinct policy
    names give distinct ARNs. *)
Theorem node_policy_attachments (nodeRole_name : Output string)
  (policies : list string) :
  let declared := NodePolicies.attachments nodeRole_name policies in
  List.length declared = List.length policies
  /\ (forall i policyName,
        nth_error policies i = Some policyName ->
        nth_error declared i
        = Some {| NodePolicies.attachment_name :=
                    "nodePolicyAttach-" ++ NodePolicies.number_to_string i;
                  NodePolicies.role := nodeRole_name;
                  NodePolicies.policyArn :=
                    "arn:aws:iam::aws:policy/" ++ policyName |})
  /\ NoDup (map NodePolicies.attachment_name declared)
  /\ (forall a, In a declared ->
        ~ In (NodePolicies.attachment_name a) NodePolicies.other_attachment_names)
  /\ (NoDup policies -> NoDup (map NodePolicies.policyArn declared)).
Proof.
  intros declared. subst declared.
  unfold NodePolicies.attachments, NodePolicies.forEach.
  split; [apply forEach_from_length |].
  split.
  { intros i p Hp. rewrite forEach_from_nth, Hp. reflexivity. }
  split.
  { apply forEach_from_NoDup. intros x y i j. apply attachment_name_inj. }
  split.
  { intros a Ha. apply forEach_from_In in Ha as (x & i & _ & ->).
    simpl. intros [H | [H | [H | []]]]; discriminate. }
  intros Hnd. generalize 0.
  induction policies as [| p policies IH]; intros k; simpl; [constructor |].
  inversion Hnd as [| ? ? Hnotin Hnd']; subst.
  constructor; [| now apply IH].
  intros Hin. apply in_map_iff in Hin as (y & Hy & Hin).
  apply forEach_from_In in Hin as (x & i & Hx & ->).
  simpl in Hy. injection Hy as Hy.
  apply Hnotin. subst. eapply nth_error_In, Hx.
Qed.

(** ** Availability zones of the two subnets *)

(** X5.  Once the zone list is known, subnet 1 is placed in its first name
    and subnet 2 in its second.  When the list names at least two zones and
    no zone twice, the two subnets are in different zones; with fewer than
    two names the zone of subnet 2 is undefined, and with none so is the
    zone of subnet 1. *)
Theorem subnet_zones (azs : Output Zones.GetAvailabilityZonesResult)
  (z : Zones.GetAvailabilityZonesResult) :
  azs = Resolved z ->
  (forall a b rest,
     Zones.names z = a :: b :: rest ->
     Zones.subnet1_availabilityZone azs = Resolved (Some a)
     /\ Zones.subnet2_availabilityZone azs = Resolved (Some b))
  /\ (NoDup (Zones.names z) -> 2 <= List.length (Zones.names z) ->
      exists a b,
        Zones.subnet1_availabilityZone azs = Resolved (Some a)
        /\ Zones.subnet2_availabilityZone azs = Resolved (Some b)
        /\ a <> b)
  /\ (List.length (Zones.names z) < 2 ->
      Zones.subnet2_availabilityZone azs = Resolved None)
  /\ (Zones.names z = [] ->
      Zones.subnet1_availabilityZone azs = Resolved None)
  /\ (forall a rest,
        Zones.names z = a :: rest ->
        Zones.subnet1_availabilityZone azs = Resolved (Some a)).
Proof.
  intros ->. unfold Zones.subnet1_availabilityZone, Zones.subnet2_availabilityZone.
  simpl. destruct (Zones.names z) as [| a [| b rest]]; simpl.
  - repeat split; try discriminate; intros; simpl in *; lia.
  - split; [| split; [| split; [| split]]].
    + discriminate.
    + simpl. lia.
    + reflexivity.
    + discriminate.
    + now intros a' rest' [= <- <-].
  - split; [| split; [| split; [| split]]].
    + intros a' b' rest' [= <- <- <-]. now split.
    + intros Hnd _. exists a, b. repeat split.
      inversion Hnd as [| ? ? Hnotin _]; subst.
      intros ->. apply Hnotin. now left.
    + simpl. lia.
    + discriminate.
    + now intros a' rest' [= <- <-].
Qed.

(** ** The in-cluster API URL of part_000 *)

Lemma dot_free_split (a a' b b' : string) :
  ClusterLocal.dot_free a = true ->
  ClusterLocal.dot_free a' = true ->
  a ++ "." ++ b = a' ++ "." ++ b' ->
  a = a' /\ b = b'.
Proof.
  revert a'. induction a as [| c a IH]; intros [| c' a'] Ha Ha' H; simpl in *.
  - injection H as ->. now split.
  - injection H as <- _. simpl in Ha'. discriminate.
  - injection H as -> _. simpl in Ha. discriminate.
  - injection H as -> H.
    apply andb_true_iff in Ha as [_ Ha]. apply andb_true_iff in Ha' as [_ Ha'].
    destruct (IH a' Ha Ha' H) as [-> ->]. now split.
Qed.

(** ** What [JSON.stringify] writes can be read back *)

Lemma read_chars_quote_char (c : ascii) (t : string) :
  Reader.read_chars (JS.quote_char c ++ t) = Reader.push c (Reader.read_chars t).
Proof.
  destruct c as [[] [] [] [] [] [] [] []]; reflexivity.
Qed.

Lemma read_chars_quote (s r : string) :
  Reader.read_chars (JS.quote_chars s ++ JS.dquote ++ r) = Some (s, r).
Proof.
  induction s as [| c s IH]; [reflexivity |].
  simpl JS.quote_chars. rewrite append_assoc, read_chars_quote_char, IH.
  reflexivity.
Qed.

Lemma weight_arr items : Reader.weight (JS.JArr items) = S (Reader.weight_items items).
Proof. reflexivity. Qed.
Lemma weight_obj props : Reader.weight (JS.JObj props) = S (Reader.weight_props props).
Proof. reflexivity. Qed.

Lemma stringify_head (j : JS.json) :
  exists c t,
    JS.JSON_stringify j = String c t
    /\ Ascii.eqb c "]" = false /\ Ascii.eqb c "}" = false.
Proof.
  destruct j as [s | items | props]; simpl; eexists _, _; repeat split.
Qed.

Lemma items_text_cons (x y : JS.json) (l : list JS.json) :
  Reader.items_text (x :: y :: l) = JS.JSON_stringify x ++ "," ++ Reader.items_text (y :: l).
Proof. reflexivity. Qed.

Lemma props_text_cons (x y : string * JS.json) (l : list (string * JS.json)) :
  Reader.props_text (x :: y :: l) = Reader.prop_text x ++ "," ++ Reader.props_text (y :: l).
Proof. reflexivity. Qed.

Lemma read_value_string (fuel : nat) (rest : string) :
  Reader.read_value (S fuel) (JS.dquote ++ rest)
  = match Reader.read_chars rest with
    | Some (str, r) => Some (JS.JStr str, r)
    | None => None
    end.
Proof. reflexivity. Qed.

Lemma read_value_array (fuel : nat) (c : ascii) (t : string) :
  Ascii.eqb c "]" = false ->
  Reader.read_value (S fuel) ("[" ++ String c t)
  = match Reader.read_items fuel (String c t) with
    | Some (items, r) => Some (JS.JArr items, r)
    | None => None
    end.
Proof. intros H. simpl. now rewrite H. Qed.

Lemma read_value_object (fuel : nat) (c : ascii) (t : string) :
  Ascii.eqb c "}" = false ->
  Reader.read_value (S fuel) ("{" ++ String c t)
  = match Reader.read_props fuel (String c t) with
    | Some (props, r) => Some (JS.JObj props, r)
    | None => None
    end.
Proof. intros H. simpl. now rewrite H. Qed.

Lemma read_items_step (fuel : nat) (s : string) :
  Reader.read_items (S fuel) s
  = match Reader.read_value fuel s with
    | Some (v, String c r) =>
        if Ascii.eqb c ","
        then match Reader.read_items fuel r with
             | Some (vs, r') => Some (v :: vs, r')
             | None => None
             end
        else if Ascii.eqb c "]" then Some ([v], r) else None
    | _ => None
    end.
Proof. reflexivity. Qed.

Lemma read_props_step (fuel : nat) (k : string) (v : JS.json) (tail : string) :
  Reader.read_props (S fuel) (Reader.prop_text (k, v) ++ tail)
  = match Reader.read_value fuel (JS.JSON_stringify v ++ tail) with
    | Some (v', String c r2) =>
        if Ascii.eqb c ","
        then match Reader.read_props fuel r2 with
             | Some (kvs, r') => Some ((k, v') :: kvs, r')
             | None => None
             end
        else if Ascii.eqb c "}" then Some ([(k, v')], r2) else None
    | _ => None
    end.
Proof.
  unfold Reader.prop_text, JS.quote. rewrite !append_assoc.
  change (Reader.read_props (S fuel)
            (JS.dquote ++ JS.quote_chars k ++ JS.dquote
               ++ ":" ++ JS.JSON_stringify v ++ tail))
    with (match Reader.read_chars
                  (JS.quote_chars k ++ JS.dquote
                     ++ ":" ++ JS.JSON_stringify v ++ tail) with
          | Some (k', String colon r1) =>
              if Ascii.eqb colon ":"
              then match Reader.read_value fuel r1 with
                   | Some (v', String c r2) =>
                       if Ascii.eqb c ","
                       then match Reader.read_props fuel r2 with
                            | Some (kvs, r') => Some ((k', v') :: kvs, r')
                            | None => None
                            end
                       else if Ascii.eqb c "}" then Some ([(k', v')], r2) else None
                   | _ => None
                   end
              else None
          | _ => None
          end).
  rewrite read_chars_quote. reflexivity.
Qed.

Lemma read_roundtrip (fuel : nat) :
  (forall j rest,
     Reader.weight j <= fuel ->
     Reader.read_value fuel (JS.JSON_stringify j ++ rest) = Some (j, rest))
  /\ (forall x xs rest,
        Reader.weight_items (x :: xs) <= fuel ->
        Reader.read_items fuel (Reader.items_text (x :: xs) ++ "]" ++ rest)
        = Some (x :: xs, rest))
  /\ (forall x xs rest,
        Reader.weight_props (x :: xs) <= fuel ->
        Reader.read_props fuel (Reader.props_text (x :: xs) ++ "}" ++ rest)
        = Some (x :: xs, rest)).
Proof.
  induction fuel as [| fuel (IHv & IHi & IHp)].
  - split; [| split].
    + intros [s | items | props] rest H; simpl in H; lia.
    + intros x xs rest H. simpl in H. lia.
    + intros [k v] xs rest H. simpl in H. lia.
  - split; [| split].
    + intros [s | items | props] rest H.
      * change (JS.JSON_stringify (JS.JStr s)) with (JS.quote s).
        unfold JS.quote. rewrite !append_assoc, read_value_string.
        now rewrite read_chars_quote.
      * rewrite weight_arr in H.
        destruct items as [| x xs]; [reflexivity |].
        change (JS.JSON_stringify (JS.JArr (x :: xs)))
          with ("[" ++ Reader.items_text (x :: xs) ++ "]").
        rewrite !append_assoc.
        assert (Hhead : exists c t, Reader.items_text (x :: xs) ++ "]" ++ rest = String c t
                                   /\ Ascii.eqb c "]" = false).
        { destruct (stringify_head x) as (c & t & Hx & Hc & _).
          destruct xs as [| y ys].
          - unfold Reader.items_text. simpl map. simpl String.concat. rewrite Hx.
            simpl. eauto.
          - rewrite items_text_cons, Hx. simpl. eauto. }
        destruct Hhead as (c & t & Ht & Hc).
        rewrite Ht, (read_value_array _ _ _ Hc), <- Ht.
        rewrite IHi by lia. reflexivity.
      * rewrite weight_obj in H.
        destruct props as [| x xs]; [reflexivity |].
        change (JS.JSON_stringify (JS.JObj (x :: xs)))
          with ("{" ++ Reader.props_text (x :: xs) ++ "}").
        rewrite !append_assoc.
        assert (Hhead : exists t, Reader.props_text (x :: xs) ++ "}" ++ rest
                                  = String "034"%char t).
        { destruct x as [k v]. destruct xs as [| y ys].
          - unfold Reader.props_text. simpl. eauto.
          - rewrite props_text_cons. simpl. eauto. }
        destruct Hhead as (t & Ht).
        rewrite Ht, (read_value_object fuel "034"%char t eq_refl), <- Ht.
        rewrite IHp by lia. reflexivity.
    + intros x xs rest H. simpl in H. rewrite read_items_step.
      destruct xs as [| y ys].
      * unfold Reader.items_text. simpl map. simpl String.concat.
        rewrite IHv by lia. reflexivity.
      * rewrite items_text_cons, !append_assoc.
        rewrite IHv by lia.
        set (tl := Reader.items_text (y :: ys) ++ "]" ++ rest). simpl. subst tl.
        rewrite IHi by (simpl; simpl in H; lia). reflexivity.
    + intros [k v] xs rest H. simpl in H.
      destruct xs as [| y ys].
      * change (Reader.props_text [(k, v)]) with (Reader.prop_text (k, v)).
        rewrite read_props_step, IHv by lia. reflexivity.
      * rewrite props_text_cons, !append_assoc.
        rewrite read_props_step, IHv by lia.
        set (tl := Reader.props_text (y :: ys) ++ "}" ++ rest). simpl. subst tl.
        rewrite IHp by (simpl; simpl in H; lia). reflexivity.
Qed.

(** Different values have different texts. *)
Lemma JSON_stringify_injective (j1 j2 : JS.json) :
  JS.JSON_stringify j1 = JS.JSON_stringify j2 -> j1 = j2.
Proof.
  intros H.
  pose (fuel := Reader.weight j1 + Reader.weight j2).
  destruct (read_roundtrip fuel) as (Hv & _ & _).
  pose proof (Hv j1 EmptyString ltac:(subst fuel; lia)) as H1.
  pose proof (Hv j2 EmptyString ltac:(subst fuel; lia)) as H2.
  rewrite H, H2 in H1. now injection H1.
Qed.

Lemma provider_kubeconfig_inv (cluster : Cluster) (text : string) :
  provider_kubeconfig (IndexTs.provider cluster) = Resolved text ->
  exists doc,
    IndexTs.kubeconfig cluster = Resolved doc /\ text = JS.JSON_stringify doc.
Proof.
  simpl. destruct (IndexTs.kubeconfig cluster) as [| doc]; simpl;
    [discriminate |].
  intros [= <-]. now exists doc.
Qed.

(** X7.  The JSON text handed to the k8s provider carries the endpoint, the
    certificate data and the name of the cluster without loss: two clusters
    for which the provider gets the same text have the same three outputs,
    whatever characters these hold.  The provider of part_000 is the same
    as the one of index.ts. *)
Theorem provider_kubeconfig_determines_cluster (c1 c2 : Cluster) (text : string) :
  provider_kubeconfig (IndexTs.provider c1) = Resolved text ->
  provider_kubeconfig (IndexTs.provider c2) = Resolved text ->
  (endpoint c1 = endpoint c2
   /\ certificateAuthority c1 = certificateAuthority c2
   /\ name c1 = name c2)
  /\ Part000.provider c1 = IndexTs.provider c1.
Proof.
  intros H1 H2. split; [| reflexivity].
  apply provider_kubeconfig_inv in H1 as (d1 & K1 & E1).
  apply provider_kubeconfig_inv in H2 as (d2 & K2 & E2).
  rewrite E1 in E2. apply JSON_stringify_injective in E2. subst d2.
  destruct (kubeconfig_resolved_inv c1 d1 K1) as (e & ca & n & He & Hca & Hn & Hd).
  destruct (kubeconfig_resolved_inv c2 d1 K2) as (e' & ca' & n' & He' & Hca' & Hn' & Hd').
  rewrite Hd in Hd'. apply kubeconfig_callback_injective in Hd'.
  injection Hd' as <- <- <-. now rewrite He, Hca, Hn, He', Hca', Hn'.
Qed.

Lemma assumeRolePolicy_inv (o : OpenIdConnectProvider) (text : string) :
  Part001.appConfigRole_assumeRolePolicy o = Resolved text ->
  exists u a,
    url o = Resolved u /\ arn o = Resolved a
    /\ text = JS.JSON_stringify (Part001.assumeRolePolicy_document u a).
Proof.
  unfold Part001.appConfigRole_assumeRolePolicy.
  destruct (url o) as [| u], (arn o) as [| a]; simpl; try discriminate.
  intros [= <-]. now exists u, a.
Qed.

Lemma assumeRolePolicy_document_inj (u1 a1 u2 a2 : string) :
  Part001.assumeRolePolicy_document u1 a1 = Part001.assumeRolePolicy_document u2 a2 ->
  a1 = a2 /\ JS.replace u1 "https://" "" = JS.replace u2 "https://" "".
Proof.
  unfold Part001.assumeRolePolicy_document. intros H.
  injection H as Ha Hk. split; [exact Ha |].
  now apply append_inv_tail in Hk.
Qed.

(** X8.  The text of the trust policy carries the ARN of the OIDC provider
    and the condition key without loss: two providers that give the same
    policy text have the same ARN and the same url once the first https://
    is cut out; when both urls begin with https:// the urls are equal. *)
Theorem trust_policy_text_determines_provider
  (o1 o2 : OpenIdConnectProvider) (text : string) :
  Part001.appConfigRole_assumeRolePolicy o1 = Resolved text ->
  Part001.appConfigRole_assumeRolePolicy o2 = Resolved text ->
  arn o1 = arn o2
  /\ pulumi.apply (fun u => JS.replace u "https://" "") (url o1)
     = pulumi.apply (fun u => JS.replace u "https://" "") (url o2)
  /\ (forall u1 u2,
        url o1 = Resolved u1 -> url o2 = Resolved u2 ->
        prefix "https://" u1 = true -> prefix "https://" u2 = true ->
        u1 = u2).
Proof.
  intros H1 H2.
  apply assumeRolePolicy_inv in H1 as (u1 & a1 & Hu1 & Ha1 & E1).
  apply assumeRolePolicy_inv in H2 as (u2 & a2 & Hu2 & Ha2 & E2).
  rewrite E1 in E2. apply JSON_stringify_injective in E2.
  apply assumeRolePolicy_document_inj in E2 as [<- Hk].
  rewrite Hu1, Hu2, Ha1, Ha2. simpl. rewrite Hk.
  repeat split.
  intros v1 v2 [= <-] [= <-] P1 P2.
  apply prefix_split in P1, P2.
  remember (substring (String.length "https://")
              (String.length u1 - String.length "https://") u1) as r1.
  remember (substring (String.length "https://")
              (String.length u2 - String.length "https://") u2) as r2.
  clear Heqr1 Heqr2 Hu1 Hu2. subst u1 u2.
  rewrite !replace_at_prefix in Hk. simpl in Hk. now rewrite Hk.
Qed.

(** ** The api-url-hash annotation *)

Ltac div_lia := zify; Z.to_euclidean_division_equations; lia.

Lemma base64_value_char (n : nat) :
  n < 64 ->
  Buffer.base64_value (Buffer.base64_char n) = Some n
  /\ Ascii.eqb (Buffer.base64_char n) "=" = false.
Proof.
  intros H. do 64 (destruct n as [| n]; [split; reflexivity |]). lia.
Qed.

Lemma of_base64_group (b0 b1 b2 : nat) (rest : list nat) :
  b0 < 256 -> b1 < 256 -> b2 < 256 ->
  Buffer.of_base64 (Buffer.toString_base64 (b0 :: b1 :: b2 :: rest))
  = match Buffer.of_base64 (Buffer.toString_base64 rest) with
    | Some bytes => Some (b0 :: b1 :: b2 :: bytes)
    | None => None
    end.
Proof.
  intros H0 H1 H2.
  destruct (base64_value_char (b0 / 4)) as [E0 _]; [div_lia |].
  destruct (base64_value_char ((b0 mod 4) * 16 + b1 / 16)) as [E1 _]; [div_lia |].
  destruct (base64_value_char ((b1 mod 16) * 4 + b2 / 64)) as [E2 N2]; [div_lia |].
  destruct (base64_value_char (b2 mod 64)) as [E3 N3]; [div_lia |].
  cbn [Buffer.toString_base64 Buffer.of_base64].
  rewrite E0, E1, N2, E2, N3, E3.
  replace ((b0 / 4) * 4 + ((b0 mod 4) * 16 + b1 / 16) / 16) with b0 by div_lia.
  replace ((((b0 mod 4) * 16 + b1 / 16) mod 16) * 16
           + ((b1 mod 16) * 4 + b2 / 64) / 4) with b1 by div_lia.
  replace ((((b1 mod 16) * 4 + b2 / 64) mod 4) * 64 + b2 mod 64) with b2 by div_lia.
  reflexivity.
Qed.

Lemma of_base64_toString (bytes : list nat) :
  Forall (fun b => b < 256) bytes ->
  Buffer.of_base64 (Buffer.toString_base64 bytes) = Some bytes.
Proof.
  assert (H : forall n bytes, List.length bytes <= n ->
              Forall (fun b => b < 256) bytes ->
              Buffer.of_base64 (Buffer.toString_base64 bytes) = Some bytes).
  { clear bytes. induction n as [| n IH]; intros bytes Hlen Hb.
    - destruct bytes; [reflexivity | simpl in Hlen; lia].
    - destruct bytes as [| b0 [| b1 [| b2 rest]]].
      + reflexivity.
      + inversion Hb as [| ? ? H0 _]; subst.
        destruct (base64_value_char (b0 / 4)) as [E0 _]; [div_lia |].
        destruct (base64_value_char ((b0 mod 4) * 16)) as [E1 _]; [div_lia |].
        cbn [Buffer.toString_base64 Buffer.of_base64]. rewrite E0, E1.
        cbn [Ascii.eqb Bool.eqb]. do 2 f_equal. div_lia.
      + inversion Hb as [| ? ? H0 Hb']; subst.
        inversion Hb' as [| ? ? H1 _]; subst.
        destruct (base64_value_char (b0 / 4)) as [E0 _]; [div_lia |].
        destruct (base64_value_char ((b0 mod 4) * 16 + b1 / 16)) as [E1 _]; [div_lia |].
        destruct (base64_value_char ((b1 mod 16) * 4)) as [E2 N2]; [div_lia |].
        cbn [Buffer.toString_base64 Buffer.of_base64]. rewrite E0, E1, N2, E2.
        cbn [Ascii.eqb Bool.eqb]. f_equal. f_equal; [div_lia |]. f_equal. div_lia.
      + inversion Hb as [| ? ? H0 Hb']; subst.
        inversion Hb' as [| ? ? H1 Hb'']; subst.
        inversion Hb'' as [| ? ? H2 Hrest]; subst.
        rewrite of_base64_group by assumption.
        rewrite IH; [reflexivity | simpl in Hlen; lia | exact Hrest]. }
  intros Hb. apply (H (List.length bytes)); [lia | exact Hb].
Qed.

Lemma to_text_utf8 (c : ascii) (rest : list nat) :
  Buffer.to_text (Buffer.utf8 c ++ rest) = Buffer.push c (Buffer.to_text rest).
Proof.
  destruct c as [[] [] [] [] [] [] [] []]; reflexivity.
Qed.

Lemma to_text_from (text : string) : Buffer.to_text (Buffer.from text) = Some text.
Proof.
  induction text as [| c text IH]; [reflexivity |].
  simpl Buffer.from. now rewrite to_text_utf8, IH.
Qed.

Lemma utf8_bytes (c : ascii) : Forall (fun b => b < 256) (Buffer.utf8 c).
Proof.
  pose proof (nat_ascii_bounded c) as Hc. unfold Buffer.utf8.
  destruct (Nat.ltb_spec (nat_of_ascii c) 128).
  - constructor; [lia | constructor].
  - constructor; [div_lia | constructor; [div_lia | constructor]].
Qed.

Lemma from_bytes (text : string) : Forall (fun b => b < 256) (Buffer.from text).
Proof.
  induction text as [| c text IH]; simpl; [constructor |].
  apply Forall_app. split; [apply utf8_bytes | exact IH].
Qed.

Lemma api_url_hash_injective (url1 url2 : string) :
  Annotations.api_url_hash_callback url1 = Annotations.api_url_hash_callback url2 ->
  url1 = url2.
Proof.
  unfold Annotations.api_url_hash_callback. intros H.
  apply (f_equal Buffer.of_base64) in H.
  rewrite !of_base64_toString in H by apply from_bytes.
  injection H as H. apply (f_equal Buffer.to_text) in H.
  rewrite !to_text_from in H. now injection H.
Qed.

(** X9.  The annotation follows the API URL: two backend statuses give the
    same api-url-hash exactly when they give the same [apiUrl], so the pod
    template changes whenever the URL does.  With no hostname the
    annotation is empty, and two statuses with hostnames share an
    annotation only if the hostnames are equal. *)
Theorem api_url_hash_tracks_api_url (s1 s2 : Service) (i1 i2 : Ingress) :
  status_loadBalancer_ingress s1 = Resolved i1 ->
  status_loadBalancer_ingress s2 = Resolved i2 ->
  (Annotations.api_url_hash s1 = Annotations.api_url_hash s2
   <-> IndexTs.apiUrl s1 = IndexTs.apiUrl s2)
  /\ (no_hostname i1 -> Annotations.api_url_hash s1 = Resolved "")
  /\ (forall h1 h2,
        hostname_present i1 h1 -> hostname_present i2 h2 ->
        Annotations.api_url_hash s1 = Annotations.api_url_hash s2 ->
        h1 = h2).
Proof.
  intros E1 E2.
  assert (Hiff : Annotations.api_url_hash s1 = Annotations.api_url_hash s2
                 <-> IndexTs.apiUrl s1 = IndexTs.apiUrl s2).
  { unfold Annotations.api_url_hash, IndexTs.apiUrl. rewrite E1, E2. simpl.
    split; intros [= H]; f_equal; [now apply api_url_hash_injective | now rewrite H]. }
  split; [exact Hiff |]. split.
  - intros Hn. unfold Annotations.api_url_hash, IndexTs.apiUrl. rewrite E1. simpl.
    destruct (url_callbacks_absent i1 Hn) as (-> & _). reflexivity.
  - intros h1 h2 P1 P2 H. apply Hiff in H.
    unfold IndexTs.apiUrl in H. rewrite E1, E2 in H. simpl in H.
    injection H as H.
    destruct (url_callbacks_present i1 h1 P1) as (A1 & _).
    destruct (url_callbacks_present i2 h2 P2) as (A2 & _).
    rewrite A1, A2 in H. apply append_inv_head in H.
    now apply append_inv_tail in H.
Qed.

(** ** The further properties at sample inputs *)

Example api_url_hash_ready :
  Annotations.api_url_hash ready_service
  = Resolved "aHR0cDovL2ExYjJjMy51cy1lYXN0LTEuZWxiLmFtYXpvbmF3cy5jb206NTA1MA==".
Proof. reflexivity. Qed.

Example node_policy_attachments_of_the_programs :
  map NodePolicies.attachment_name
    (NodePolicies.attachments Unresolved NodePolicies.policyNames)
  = ["nodePolicyAttach-0"; "nodePolicyAttach-1"; "nodePolicyAttach-2"]
  /\ map NodePolicies.policyArn
       (NodePolicies.attachments Unresolved NodePolicies.policyNames)
     = ["arn:aws:iam::aws:policy/AmazonEKSWorkerNodePolicy";
        "arn:aws:iam::aws:policy/AmazonEKS_CNI_Policy";
        "arn:aws:iam::aws:policy/AmazonEC2ContainerRegistryReadOnly"].
Proof. split; reflexivity. Qed.

Example number_to_string_twelve : NodePolicies.number_to_string 12 = "12".
Proof. reflexivity. Qed.

Example read_back_trust_policy :
  Reader.read_value 20
    (JS.JSON_stringify
       (Part001.assumeRolePolicy_document "https://oidc.example/id/1"
          (JS.dquote ++ "arn" ++ JS.backslash)))
  = Some (Part001.assumeRolePolicy_document "https://oidc.example/id/1"
            (JS.dquote ++ "arn" ++ JS.backslash), EmptyString).
Proof. reflexivity. Qed.

Lemma urls_determine_hostname_witness :
  IndexTs.backEndUrl_callback
    (Some [ {| hostname := Some "a.elb.amazonaws.com"; ip := None |} ])
  = IndexTs.frontEndUrl_callback
      (Some [ {| hostname := Some "a.elb.amazonaws.com"; ip := None |} ])
    ++ ":5050".
Proof.
  refine (proj2 (proj2 (proj2
            (urls_determine_hostname
               (Some [ {| hostname := Some "a.elb.amazonaws.com"; ip := None |} ])
               (Some [ {| hostname := Some "b.elb.amazonaws.com";
                          ip := Some "203.0.113.10" |} ])
               "a.elb.amazonaws.com" "b.elb.amazonaws.com" _ _))));
    eexists _, _; repeat split; discriminate.
Defined.

Lemma subnet_zones_witness :
  exists a b,
    Zones.subnet1_availabilityZone (Resolved sample_zones) = Resolved (Some a)
    /\ Zones.subnet2_availabilityZone (Resolved sample_zones) = Resolved (Some b)
    /\ a <> b.
Proof.
  destruct (subnet_zones (Resolved sample_zones) sample_zones eq_refl)
    as (_ & H & _).
  apply H.
  - simpl. repeat constructor; simpl; intuition discriminate.
  - simpl. lia.
Defined.

Lemma provider_kubeconfig_determines_cluster_witness :
  endpoint sample_cluster = endpoint upgraded_cluster
  /\ certificateAuthority sample_cluster = certificateAuthority upgraded_cluster
  /\ name sample_cluster = name upgraded_cluster.
Proof.
  exact (proj1 (provider_kubeconfig_determines_cluster
                  sample_cluster upgraded_cluster _ eq_refl eq_refl)).
Defined.

Lemma trust_policy_text_determines_provider_witness :
  arn sample_oidcProvider = arn sample_oidcProvider.
Proof.
  exact (proj1 (trust_policy_text_determines_provider
                  sample_oidcProvider sample_oidcProvider _ eq_refl eq_refl)).
Defined.

Lemma api_url_hash_tracks_api_url_witness :
  Annotations.api_url_hash pending_service = Resolved ""
  /\ (Annotations.api_url_hash ready_service
      = Annotations.api_url_hash ip_only_service
      <-> IndexTs.apiUrl ready_service = IndexTs.apiUrl ip_only_service).
Proof.
  split.
  - destruct (api_url_hash_tracks_api_url pending_service pending_service _ _
                eq_refl eq_refl) as (_ & H & _).
    apply H. left. reflexivity.
  - exact (proj1 (api_url_hash_tracks_api_url ready_service ip_only_service _ _
                    eq_refl eq_refl)).
Defined.

(** ** The in-cluster API URL of part_000, its form and what it determines *)

(** X6.  The API_URL of part_000 is http:// followed by the service name,
    a dot, the namespace and .svc.cluster.local:5050, once the metadata of
    the backend service is resolved and not before.  When the service
    names hold no dot, two services get the same URL only if they have the
    same name and the same namespace; with a dot in a name two different
    services can share one URL. *)
Theorem cluster_local_url_determines_service (m1 m2 : ClusterLocal.ObjectMeta) :
  ClusterLocal.API_URL_callback m1
  = "http://" ++ ClusterLocal.name m1 ++ "." ++ ClusterLocal.namespace m1
      ++ ".svc.cluster.local:5050"
  /\ ClusterLocal.API_URL (Resolved m1)
     = Resolved ("http://" ++ ClusterLocal.name m1 ++ "."
                   ++ ClusterLocal.namespace m1 ++ ".svc.cluster.local:5050")
  /\ ClusterLocal.API_URL Unresolved = Unresolved
  /\ (ClusterLocal.dot_free (ClusterLocal.name m1) = true ->
      ClusterLocal.dot_free (ClusterLocal.name m2) = true ->
      ClusterLocal.API_URL_callback m1 = ClusterLocal.API_URL_callback m2 ->
      m1 = m2)
  /\ (exists m m',
        m <> m'
        /\ ClusterLocal.API_URL_callback m = ClusterLocal.API_URL_callback m').
Proof.
  repeat match goal with |- _ /\ _ => split end; try reflexivity.
  - destruct m1 as [n1 ns1], m2 as [n2 ns2]. unfold ClusterLocal.API_URL_callback.
    simpl ClusterLocal.name. simpl ClusterLocal.namespace.
    intros H1 H2 H. apply append_inv_head in H.
    apply dot_free_split in H as [-> H]; try assumption.
    apply append_inv_tail in H. now subst.
  - exists {| ClusterLocal.name := "api.v2"; ClusterLocal.namespace := "prod" |},
      {| ClusterLocal.name := "api"; ClusterLocal.namespace := "v2.prod" |}.
    split; [discriminate | reflexivity].
Qed.

Lemma cluster_local_url_determines_service_witness :
  sample_metadata
  = {| ClusterLocal.name := "backend-service-3f9a1c2e";
       ClusterLocal.namespace := "default" |}
  /\ ClusterLocal.API_URL (Resolved sample_metadata)
     = Resolved "http://backend-service-3f9a1c2e.default.svc.cluster.local:5050".
Proof.
  destruct (cluster_local_url_determines_service sample_metadata
              {| ClusterLocal.name := "backend-service-3f9a1c2e";
                 ClusterLocal.namespace := "default" |})
    as (_ & Hurl & _ & Hinj & _).
  split; [apply Hinj; reflexivity | exact Hurl].
Defined.

(** ** The texts read back *)


(** ** The IRSA trust policy *)





(** ** The kubeconfig projection in a run of the program *)







